(** * Document Q&A front end and retrieval core: a shallow embedding

    The React components of the repository (App.jsx, DocumentUpload.jsx,
    ChatInterface.jsx, DocumentList.jsx) are embedded as pure functions
    from the values a render closes over to the list of effects the
    handler issues (state setter calls and HTTP requests), together with
    an event-driven transition function that applies those effects.
    An event runs the handler of the latest render to its first [await]
    in one step; the settlement of a request is an event of its own,
    which runs the continuation with what the handler closed over.  A
    drop is two events: the dropzone takes the files if the latest
    render left it enabled, and calls [onDrop] once they are read.

    The retrieval core (chunker, vector index) is not part of the
    sources; it is modelled from the specification, each such definition
    saying so. *)

From Stdlib Require Import String Ascii.
From Stdlib Require Import List Bool Arith NArith Lia.
From Stdlib Require Import QArith Sorted.
Import ListNotations.
Close Scope Q_scope.
Open Scope nat_scope.

(* ================================================================== *)
(** * JavaScript strings *)
(* ================================================================== *)

Module JS.

(** A JavaScript string is a sequence of UTF-16 code units. *)
Definition JsString := list N.

(** A literal of the source, written in ASCII. *)
Definition js (s : string) : JsString :=
  map N_of_ascii (list_ascii_of_string s).

Fixpoint eqb (s t : JsString) : bool :=
  match s, t with
  | [], [] => true
  | c :: s', d :: t' => N.eqb c d && eqb s' t'
  | _, _ => false
  end.

(** [!s] is true exactly for the empty string. *)
Definition falsy (s : JsString) : bool :=
  match s with [] => true | _ :: _ => false end.

(** LineTerminator code points: LF, CR, LS, PS. *)
Definition isLineTerminator (c : N) : bool :=
  existsb (N.eqb c) [10; 13; 8232; 8233]%N.

(** WhiteSpace (TAB, VT, FF, SP, NBSP, ZWNBSP and the space separators)
    and LineTerminator code points: what [String.prototype.trim] strips. *)
Definition isWhiteSpace (c : N) : bool :=
  existsb (N.eqb c)
    [9; 11; 12; 32; 160; 65279; 5760; 8239; 8287; 12288]%N
  || (N.leb 8192 c && N.leb c 8202)
  || isLineTerminator c.

Fixpoint trimStart (s : JsString) : JsString :=
  match s with
  | [] => []
  | c :: s' => if isWhiteSpace c then trimStart s' else s
  end.

Definition trimEnd (s : JsString) : JsString := rev (trimStart (rev s)).

Definition trim (s : JsString) : JsString := trimEnd (trimStart s).

(** [toLowerCase] as far as its result can hold an ASCII letter: the
    ASCII capitals and the Kelvin sign, which lowers to [k].  Other code
    units lower to code units outside ASCII and are left as they are. *)
Definition lowerUnit (c : N) : N :=
  if N.leb 65 c && N.leb c 90 then (c + 32)%N
  else if N.eqb c 8490 then 107%N
  else c.

Definition toLowerCase (s : JsString) : JsString := map lowerUnit s.

Fixpoint startsWith (s p : JsString) : bool :=
  match p, s with
  | [], _ => true
  | d :: p', c :: s' => N.eqb c d && startsWith s' p'
  | _ :: _, [] => false
  end.

Definition endsWith (s p : JsString) : bool := startsWith (rev s) (rev p).

(** [s.replace(/\/.*$/, '')]: cut at the leftmost slash that is followed
    by no line terminator up to the end of the string. *)
Fixpoint stripFromSlash (s : JsString) : JsString :=
  match s with
  | [] => []
  | c :: s' =>
      if N.eqb c 47 && forallb (fun d => negb (isLineTerminator d)) s'
      then [] else c :: stripFromSlash s'
  end.

End JS.

Import JS.
Arguments js s%_string.

(* ================================================================== *)
(** * The front end: data *)
(* ================================================================== *)

(** Document metadata as returned by the upload endpoint and shown by
    DocumentList ([doc.id], [doc.filename], [doc.type], [doc.pages],
    [doc.chunks]).  Objects are truthy in JavaScript. *)
Record Document := mkDocument {
  doc_id : JsString;
  doc_filename : JsString;
  doc_type : JsString;
  doc_pages : option N;
  doc_chunks : option N
}.

Record Source := mkSource {
  src_page : option N;
  src_chunk_id : option N;
  src_score : Q;
  src_text : JsString
}.

Inductive MessageType := user | assistant.

(** A chat message as built in [handleSubmit]. *)
Record Message := mkMessage {
  msg_id : N;
  msg_type : MessageType;
  msg_content : JsString;
  msg_sources : option (list Source);
  msg_error : bool;
  msg_timestamp : N
}.

(** [response.data] of a successful query. *)
Record QueryResponse := mkQueryResponse {
  resp_answer : JsString;
  resp_sources : list Source
}.

(** A dropped file, as far as the dropzone looks at it. *)
Record File := mkFile {
  file_name : JsString;
  file_type : JsString
}.

Inductive StatusType := success | error.

Record UploadStatus := mkUploadStatus {
  status_type : StatusType;
  status_message : JsString
}.

(** What a handler does: calls of the state setters and HTTP requests.
    The functional updaters [prev => [...prev, x]] have constructors of
    their own. *)
Inductive Effect :=
| setDocuments_append (document : Document)
| setSelectedDocument (document : Document)
| setMessages (ms : list Message)
| setMessages_append (message : Message)
| setQuestion (q : JsString)
| setIsLoading (b : bool)
| setUploading (b : bool)
| setUploadStatus (s : option UploadStatus)
| post_query (document_id question : JsString)
| post_upload (file : File).

(* ================================================================== *)
(** * App.jsx *)
(* ================================================================== *)

(** [handleDocumentUploaded], closed over the [selectedDocument] of the
    render that created it. *)
Definition handleDocumentUploaded (selectedDocument : option Document)
    (document : Document) : list Effect :=
  setDocuments_append document ::
  match selectedDocument with
  | None => [setSelectedDocument document]
  | Some _ => []
  end.

Definition handleDocumentSelect (document : Document) : list Effect :=
  [setSelectedDocument document; setMessages []].

Definition handleNewMessage (message : Message) : list Effect :=
  [setMessages_append message].

(* ================================================================== *)
(** * ChatInterface.jsx *)
(* ================================================================== *)

Definition userMessage (question : JsString) (now : N) : Message :=
  mkMessage now user question None false now.

Definition assistantMessage (response : QueryResponse) (now : N) : Message :=
  mkMessage (now + 1) assistant (resp_answer response)
    (Some (resp_sources response)) false now.

Definition errorMessage (now : N) : Message :=
  mkMessage (now + 1) assistant
    (js "Sorry, I encountered an error while processing your question. Please try again.")
    None true now.

(** [handleSubmit] up to the [await]: the guard, the user message, the
    two setters and the request.  [document], [question] and [isLoading]
    are those of the render; [now] is the clock. *)
Definition handleSubmit (onNewMessage : Message -> list Effect)
    (document : Document) (question : JsString) (isLoading : bool)
    (now : N) : list Effect :=
  if falsy (trim question) || isLoading then []
  else
    onNewMessage (userMessage question now) ++
    [setQuestion []; setIsLoading true;
     post_query (doc_id document) question].

(** The rest of the [try] block, then [finally]. *)
Definition handleSubmit_resolved (onNewMessage : Message -> list Effect)
    (response : QueryResponse) (now : N) : list Effect :=
  onNewMessage (assistantMessage response now) ++ [setIsLoading false].

(** The [catch] block, then [finally]. *)
Definition handleSubmit_rejected (onNewMessage : Message -> list Effect)
    (now : N) : list Effect :=
  onNewMessage (errorMessage now) ++ [setIsLoading false].

(** The submit button's [disabled] attribute. *)
Definition submit_disabled (question : JsString) (isLoading : bool) : bool :=
  falsy (trim question) || isLoading.

(* ================================================================== *)
(** * DocumentUpload.jsx *)
(* ================================================================== *)

(** The [accept] option handed to [useDropzone]. *)
Definition accept : list (JsString * list JsString) :=
  [ (js "application/pdf", [js ".pdf"]);
    (js "text/markdown", [js ".md"]);
    (js "text/html", [js ".html"]);
    (js "text/plain", [js ".txt"]) ].

Definition maxFiles : nat := 1.

(** [onDrop] up to the [await]. *)
Definition onDrop (acceptedFiles : list File) : list Effect :=
  match acceptedFiles with
  | [] => []
  | file :: _ =>
      [setUploading true; setUploadStatus None; post_upload file]
  end.

(** The rest of the [try] block, then [finally]. *)
Definition onDrop_resolved (onDocumentUploaded : Document -> list Effect)
    (data : Document) : list Effect :=
  setUploadStatus
    (Some (mkUploadStatus success (js "Document uploaded successfully!")))
  :: onDocumentUploaded data ++ [setUploading false].

(** The [catch] block, then [finally];
    [err] is [error.response?.data?.error]. *)
Definition onDrop_rejected (err : option JsString) : list Effect :=
  let message :=
    match err with
    | Some m => if falsy m then js "Failed to upload document" else m
    | None => js "Failed to upload document"
    end in
  [setUploadStatus (Some (mkUploadStatus error message)); setUploading false].

(** ** The dropzone (react-dropzone and its file-selector, dependencies
    of the component that are not part of the sources)

    The files of a drop are read first: the thumbnail cache files are
    left out, and a file for which the browser reports no type gets the
    type that the extension table of file-selector has for the part of
    its name behind the last dot.  That table is not in the sources; it
    comes with the event that reads the files.

    The hook then flattens the [accept] table into one list of MIME
    types and extensions and keeps a file when any entry matches it: an
    entry starting with a dot matches the end of the lower-cased file
    name, an entry ending in [/*] matches the base MIME type, any other
    entry matches the lower-cased MIME type.  A file carrying the drag
    placeholder type of old Firefox versions is always kept.  When more
    files are kept than [maxFiles], all of them are rejected. *)

Definition FILES_TO_IGNORE : list JsString := [js ".DS_Store"; js "Thumbs.db"].

(** [name.split('.').pop()]. *)
Fixpoint untilDot (s : JsString) : JsString :=
  match s with
  | [] => []
  | c :: s' => if N.eqb c 46 then [] else c :: untilDot s'
  end.

Definition lastSegment (name : JsString) : JsString :=
  rev (untilDot (rev name)).

Definition withMimeType (table : JsString -> option JsString) (file : File)
    : File :=
  let name := file_name file in
  let hasExtension := negb (falsy name) && existsb (N.eqb 46) name in
  if hasExtension && falsy (file_type file) then
    match table (toLowerCase (lastSegment name)) with
    | Some type => if falsy type then file else mkFile name type
    | None => file
    end
  else file.

Definition fromEvent (table : JsString -> option JsString)
    (files : list File) : list File :=
  map (withMimeType table)
    (filter (fun f => negb (existsb (JS.eqb (file_name f)) FILES_TO_IGNORE))
       files).

Definition acceptPropAsAcceptAttr
    (a : list (JsString * list JsString)) : list JsString :=
  flat_map (fun e => fst e :: snd e) a.

Definition accepts (file : File) (acceptedFiles : list JsString) : bool :=
  let fileName := file_name file in
  let mimeType := toLowerCase (file_type file) in
  let baseMimeType := stripFromSlash mimeType in
  existsb (fun type =>
    let validType := toLowerCase (trim type) in
    match validType with
    | 46%N :: _ => endsWith (toLowerCase fileName) validType
    | _ =>
        if endsWith validType (js "/*")
        then JS.eqb baseMimeType (stripFromSlash validType)
        else JS.eqb mimeType validType
    end) acceptedFiles.

Definition fileAccepted (file : File) (acceptAttr : list JsString) : bool :=
  JS.eqb (file_type file) (js "application/x-moz-file")
  || accepts file acceptAttr.

Definition dropzone_acceptedFiles (files : list File) : list File :=
  let kept :=
    filter (fun f => fileAccepted f (acceptPropAsAcceptAttr accept)) files in
  if Nat.ltb maxFiles (List.length kept) then [] else kept.

(* ================================================================== *)
(** * The running page *)
(* ================================================================== *)

(** The state hooks of [App], [ChatInterface] and [DocumentUpload], the
    requests that were sent and have not settled yet, and the drops
    whose files are still being read.  A drop and an upload in flight
    remember the [selectedDocument] their continuation closed over:
    [onDrop] calls the [onDocumentUploaded] of the render in which the
    drop happened. *)
Record World := mkWorld {
  documents : list Document;
  selectedDocument : option Document;
  messages : list Message;
  question : JsString;
  isLoading : bool;
  uploading : bool;
  uploadStatus : option UploadStatus;
  queries_in_flight : list (JsString * JsString);
  uploads_in_flight : list (File * option Document);
  drops_pending : list (list File * option Document)
}.

Definition initial : World :=
  mkWorld [] None [] [] false false None [] [] [].

(** One effect of a handler whose render had the selection
    [closed_over], applied to the state the earlier effects of the same
    handler left. *)
Definition perform (closed_over : option Document) (e : Effect) (w : World)
    : World :=
  match e with
  | setDocuments_append d =>
      mkWorld (documents w ++ [d]) (selectedDocument w) (messages w)
        (question w) (isLoading w) (uploading w) (uploadStatus w)
        (queries_in_flight w) (uploads_in_flight w) (drops_pending w)
  | setSelectedDocument d =>
      mkWorld (documents w) (Some d) (messages w)
        (question w) (isLoading w) (uploading w) (uploadStatus w)
        (queries_in_flight w) (uploads_in_flight w) (drops_pending w)
  | setMessages ms =>
      mkWorld (documents w) (selectedDocument w) ms
        (question w) (isLoading w) (uploading w) (uploadStatus w)
        (queries_in_flight w) (uploads_in_flight w) (drops_pending w)
  | setMessages_append m =>
      mkWorld (documents w) (selectedDocument w) (messages w ++ [m])
        (question w) (isLoading w) (uploading w) (uploadStatus w)
        (queries_in_flight w) (uploads_in_flight w) (drops_pending w)
  | setQuestion q =>
      mkWorld (documents w) (selectedDocument w) (messages w)
        q (isLoading w) (uploading w) (uploadStatus w)
        (queries_in_flight w) (uploads_in_flight w) (drops_pending w)
  | setIsLoading b =>
      mkWorld (documents w) (selectedDocument w) (messages w)
        (question w) b (uploading w) (uploadStatus w)
        (queries_in_flight w) (uploads_in_flight w) (drops_pending w)
  | setUploading b =>
      mkWorld (documents w) (selectedDocument w) (messages w)
        (question w) (isLoading w) b (uploadStatus w)
        (queries_in_flight w) (uploads_in_flight w) (drops_pending w)
  | setUploadStatus s =>
      mkWorld (documents w) (selectedDocument w) (messages w)
        (question w) (isLoading w) (uploading w) s
        (queries_in_flight w) (uploads_in_flight w) (drops_pending w)
  | post_query d q =>
      mkWorld (documents w) (selectedDocument w) (messages w)
        (question w) (isLoading w) (uploading w) (uploadStatus w)
        (queries_in_flight w ++ [(d, q)]) (uploads_in_flight w)
        (drops_pending w)
  | post_upload f =>
      mkWorld (documents w) (selectedDocument w) (messages w)
        (question w) (isLoading w) (uploading w) (uploadStatus w)
        (queries_in_flight w)
        (uploads_in_flight w ++ [(f, closed_over)]) (drops_pending w)
  end.

Definition perform_all (closed_over : option Document) (es : list Effect)
    (w : World) : World :=
  fold_left (fun acc e => perform closed_over e acc) es w.

(** What can happen to the page.  [FilesRead k table] is the end of the
    reading of the [k]-th pending drop, [table] being the extension
    table of file-selector; [UploadOvertakes k] says that the [k]-th
    upload in flight is the next to settle, responses arriving in any
    order. *)
Inductive Event :=
| DropFiles (files : list File)
| FilesRead (k : nat) (table : JsString -> option JsString)
| UploadOvertakes (k : nat)
| UploadResolved (data : Document)
| UploadRejected (err : option JsString)
| ClickDocument (i : nat)
| ChangeQuestion (q : JsString)
| Submit (now : N)
| QueryResolved (response : QueryResponse) (now : N)
| QueryRejected (now : N).

(** The effects the handler of an event issues in the world [w].
    A drop calls no handler of the page yet; [onDrop] runs, without a
    guard of its own, when the files are read; DocumentList has one
    button per document; ChatInterface is mounted once a document is
    selected and its input is disabled while [isLoading]; a settled
    request runs the continuation of the request that is in flight. *)
Definition handler_effects (w : World) (ev : Event) : list Effect :=
  match ev with
  | DropFiles _ => []
  | FilesRead k table =>
      match nth_error (drops_pending w) k with
      | Some (files, _) =>
          onDrop (dropzone_acceptedFiles (fromEvent table files))
      | None => []
      end
  | UploadOvertakes _ => []
  | UploadResolved data =>
      match uploads_in_flight w with
      | (_, closed_over) :: _ =>
          onDrop_resolved (handleDocumentUploaded closed_over) data
      | [] => []
      end
  | UploadRejected err =>
      match uploads_in_flight w with
      | _ :: _ => onDrop_rejected err
      | [] => []
      end
  | ClickDocument i =>
      match nth_error (documents w) i with
      | Some doc => handleDocumentSelect doc
      | None => []
      end
  | ChangeQuestion q =>
      match selectedDocument w with
      | Some _ => if isLoading w then [] else [setQuestion q]
      | None => []
      end
  | Submit now =>
      match selectedDocument w with
      | Some document =>
          handleSubmit handleNewMessage document (question w) (isLoading w) now
      | None => []
      end
  | QueryResolved response now =>
      match queries_in_flight w with
      | _ :: _ => handleSubmit_resolved handleNewMessage response now
      | [] => []
      end
  | QueryRejected now =>
      match queries_in_flight w with
      | _ :: _ => handleSubmit_rejected handleNewMessage now
      | [] => []
      end
  end.

(** The list without its [k]-th entry, and with that entry in front. *)
Definition without {A} (k : nat) (l : list A) : list A :=
  firstn k l ++ skipn (S k) l.

Definition in_front {A} (k : nat) (l : list A) : list A :=
  match nth_error l k with
  | Some x => x :: without k l
  | None => l
  end.

(** The book-keeping of an event.  The dropzone takes a drop unless the
    latest render has disabled it ([disabled: uploading]), and the drop
    closes over the selection of that render; read files leave the
    pending drops; a settled request leaves the requests in flight. *)
Definition settle (ev : Event) (w : World) : World :=
  match ev with
  | DropFiles files =>
      if uploading w then w
      else
        mkWorld (documents w) (selectedDocument w) (messages w)
          (question w) (isLoading w) (uploading w) (uploadStatus w)
          (queries_in_flight w) (uploads_in_flight w)
          (drops_pending w ++ [(files, selectedDocument w)])
  | FilesRead k _ =>
      mkWorld (documents w) (selectedDocument w) (messages w)
        (question w) (isLoading w) (uploading w) (uploadStatus w)
        (queries_in_flight w) (uploads_in_flight w)
        (without k (drops_pending w))
  | UploadOvertakes k =>
      mkWorld (documents w) (selectedDocument w) (messages w)
        (question w) (isLoading w) (uploading w) (uploadStatus w)
        (queries_in_flight w) (in_front k (uploads_in_flight w))
        (drops_pending w)
  | UploadResolved _ | UploadRejected _ =>
      mkWorld (documents w) (selectedDocument w) (messages w)
        (question w) (isLoading w) (uploading w) (uploadStatus w)
        (queries_in_flight w) (tl (uploads_in_flight w)) (drops_pending w)
  | QueryResolved _ _ | QueryRejected _ =>
      mkWorld (documents w) (selectedDocument w) (messages w)
        (question w) (isLoading w) (uploading w) (uploadStatus w)
        (tl (queries_in_flight w)) (uploads_in_flight w) (drops_pending w)
  | _ => w
  end.

(** The selection the handler of an event closed over: that of the
    render in which the drop happened for [onDrop], that of the latest
    render otherwise. *)
Definition closed_over (w : World) (ev : Event) : option Document :=
  match ev with
  | FilesRead k _ =>
      match nth_error (drops_pending w) k with
      | Some (_, c) => c
      | None => selectedDocument w
      end
  | _ => selectedDocument w
  end.

Definition step (w : World) (ev : Event) : World :=
  perform_all (closed_over w ev) (handler_effects w ev) (settle ev w).

Definition run (evs : list Event) : World := fold_left step evs initial.

(** Does a handler send a query request? *)
Definition is_post_query (e : Effect) : bool :=
  match e with post_query _ _ => true | _ => false end.

Definition sends_query (es : list Effect) : bool := existsb is_post_query es.

(* ================================================================== *)
(** * The front end: invariants and sample data *)
(* ================================================================== *)

(** The dropzone is disabled only while an upload is in flight, a
    selection that a drop or an upload in flight closed over has not gone
    away, and nothing is listed before something is selected. *)
Definition upload_invariant (w : World) : Prop :=
  (uploading w = true -> uploads_in_flight w <> []) /\
  (forall f d, In (f, Some d) (uploads_in_flight w) ->
     selectedDocument w <> None) /\
  (forall fs d, In (fs, Some d) (drops_pending w) ->
     selectedDocument w <> None) /\
  (selectedDocument w = None -> documents w = []).

(** At most one query is in flight, and [isLoading] holds while it is. *)
Definition query_invariant (w : World) : Prop :=
  (queries_in_flight w <> [] -> isLoading w = true) /\
  length (queries_in_flight w) <= 1.



Definition sample_file : File := mkFile (js "guide.pdf") (js "application/pdf").

(** An extension table without entries, and one that knows [htm]. *)
Definition no_table (ext : JsString) : option JsString := None.

Definition htm_table (ext : JsString) : option JsString :=
  if JS.eqb ext (js "htm") then Some (js "text/html") else None.


Definition sample_document : Document :=
  mkDocument (js "d1") (js "guide.pdf") (js "pdf") (Some 3%N) None.

Definition other_document : Document :=
  mkDocument (js "d2") (js "notes.txt") (js "text") None (Some 4%N).

(** One file dropped and read: an upload in flight. *)
Definition dropped : list Event :=
  [DropFiles [sample_file]; FilesRead 0 no_table].

(** Two drops before the dropzone is rendered disabled, both read, and
    the first upload answered. *)
Definition two_uploads : list Event :=
  [DropFiles [sample_file]; DropFiles [sample_file];
   FilesRead 0 no_table; FilesRead 0 no_table;
   UploadResolved sample_document].

(** A page with one uploaded document and one question asked. *)
Definition asked : list Event :=
  [DropFiles [sample_file]; FilesRead 0 no_table;
   UploadResolved sample_document;
   ChangeQuestion (js "What is it about?"); Submit 1000%N].


(* ================================================================== *)
(** * DocumentList.jsx and what App.jsx shows *)
(* ================================================================== *)

(** [doc.pages ? ... : ...]: a number is truthy unless it is 0; a
    missing field is falsy. *)
Definition truthy_number (n : option N) : bool :=
  match n with
  | Some n => negb (N.eqb n 0)
  | None => false
  end.

(** The second line of a button: [`${doc.pages} pages`] or
    [`${doc.chunks} chunks`]. *)
Inductive DocumentLabel :=
| pages_label (pages : N)
| chunks_label (chunks : option N).

Definition document_label (doc : Document) : DocumentLabel :=
  match doc_pages doc with
  | Some n => if N.eqb n 0 then chunks_label (doc_chunks doc) else pages_label n
  | None => chunks_label (doc_chunks doc)
  end.

(** One button of the list: the document its click selects, whether it
    carries the classes of the selected entry
    ([selectedDocument?.id === doc.id]), and its label. *)
Record DocumentButton := mkDocumentButton {
  button_document : Document;
  button_highlighted : bool;
  button_label : DocumentLabel
}.

(** [DocumentList]: [None] is the "No documents uploaded yet" card,
    otherwise one button per document, in the order of the list. *)
Definition DocumentList (documents : list Document)
    (selectedDocument : option Document) : option (list DocumentButton) :=
  if Nat.eqb (List.length documents) 0 then None
  else
    Some (map (fun doc =>
                 mkDocumentButton doc
                   match selectedDocument with
                   | Some s => JS.eqb (doc_id s) (doc_id doc)
                   | None => false
                   end
                   (document_label doc))
              documents).

(** The main column of [App]: the chat of the selected document, or the
    "Upload a Document to Get Started" card. *)
Definition chat_shown (selectedDocument : option Document) : bool :=
  match selectedDocument with Some _ => true | None => false end.

(** Does a handler send an upload request? *)
Definition is_post_upload (e : Effect) : bool :=
  match e with post_upload _ => true | _ => false end.

(** What else holds on every page that can be reached: [isLoading] is
    set only while a query is in flight, the input is empty while a
    query is loading, the selected document is a listed one, and a query
    in flight names a listed document. *)
Definition page_invariant (w : World) : Prop :=
  (isLoading w = true -> queries_in_flight w <> []) /\
  (isLoading w = true -> question w = []) /\
  (forall d, selectedDocument w = Some d -> In d (documents w)) /\
  (forall d q, In (d, q) (queries_in_flight w) ->
     exists doc, In doc (documents w) /\ doc_id doc = d).

(** A page on which a first question was typed but not sent. *)
Definition typed : list Event :=
  [DropFiles [sample_file]; FilesRead 0 no_table;
   UploadResolved sample_document;
   ChangeQuestion (js "What is it about?")].

Definition sample_response : QueryResponse :=
  mkQueryResponse (js "It is a guide.")
    [mkSource (Some 2%N) None (9 # 10) (js "This guide explains")].

(* ================================================================== *)
(** * The retrieval core, modelled from the specification *)
(* ================================================================== *)

Module Chunker.

(** Modelled from the spec: a Chunk of the data model (the chunker is
    not in the sources), with its sequence index (the identifier within
    the document), its text, and its offset range [char_start, char_end)
    in the source.  The element type [A] is the token or the character. *)
Record Chunk (A : Type) := mkChunk {
  sequence_index : nat;
  text : list A;
  char_start : nat;
  char_end : nat
}.

Arguments mkChunk {A}.
Arguments sequence_index {A}.
Arguments text {A}.
Arguments char_start {A}.
Arguments char_end {A}.

(** Modelled from the spec: the window of the chunker that starts at
    [start]; it has length [size], or is shorter when the remaining text
    is insufficient, and records its absolute offset range. *)
Definition window {A} (source : list A) (size idx start : nat) : Chunk A :=
  let stop := Nat.min (start + size) (length source) in
  mkChunk idx (firstn (stop - start) (skipn start source)) start stop.

(** Modelled from the spec: the single pass of the chunker (the code of
    the chunker is not in the sources).  Windows are emitted from [start]
    on, the start advancing by [step]; the window that reaches the end of
    the text is the final one, so that only the final window can be
    shorter than [size]; no window is emitted at or behind the end, so
    that an empty text yields no chunk.  [fuel] bounds the number of
    windows. *)
Fixpoint windows {A} (fuel : nat) (source : list A) (size step idx start : nat)
    : list (Chunk A) :=
  match fuel with
  | 0 => []
  | S fuel' =>
      if length source <=? start then []
      else if length source <=? start + size
      then [window source size idx start]
      else window source size idx start
             :: windows fuel' source size step (S idx) (start + step)
  end.

(** Modelled from the spec: [chunk(text, size, overlap)], the window
    start advancing by [size - overlap].  The contract is for
    [0 < overlap < size]; the length of the text is then fuel enough. *)
Definition chunk {A} (source : list A) (size overlap : nat) : list (Chunk A) :=
  windows (length source) source size (size - overlap) 0 0.

(** The positions two offset ranges have in common. *)
Definition shared {A} (c d : Chunk A) : nat :=
  Nat.min (char_end c) (char_end d) - Nat.max (char_start c) (char_start d).

End Chunker.

Module VectorIndex.

Definition Vector := list Q.

(** Modelled from the spec: the vector index of one document, an
    append-only collection of (chunk id, vector) pairs. *)
Definition Index := list (nat * Vector).

(** Modelled from the spec: the index as created, and
    [insert(chunk_id, vector)]. *)
Definition empty : Index := [].

Definition insert (index : Index) (chunk_id : nat) (v : Vector) : Index :=
  index ++ [(chunk_id, v)].

(** Modelled from the spec: one entry of a Retrieval Result. *)
Record Hit := mkHit {
  chunk_id : nat;
  similarity_score : Q;
  chunk_text : JsString
}.

(** Modelled from the spec: the similarity metric, the inner product of
    L2-normalised vectors, over the rationals. *)
Fixpoint inner_product (u v : Vector) : Q :=
  match u, v with
  | x :: u', y :: v' => (x * y + inner_product u' v')%Q
  | _, _ => 0%Q
  end.

(** Modelled from the spec: the order of a Retrieval Result, descending
    similarity, ties by ascending chunk sequence index. *)
Definition precedes (h h' : Hit) : bool :=
  if Qeq_bool (similarity_score h) (similarity_score h')
  then chunk_id h <=? chunk_id h'
  else Qle_bool (similarity_score h') (similarity_score h).

(** Modelled from the spec: ranking, by insertion in that order. *)
Fixpoint place (h : Hit) (hs : list Hit) : list Hit :=
  match hs with
  | [] => [h]
  | h' :: hs' => if precedes h h' then h :: hs else h' :: place h hs'
  end.

Definition rank (hs : list Hit) : list Hit := fold_right place [] hs.

(** Modelled from the spec: exact nearest-neighbour [search(q, k)] (the
    code of the index is not in the sources): every chunk is scored
    against the query, the hits are ranked, and the first [k] are
    returned, which clamps [k] to the number of chunks.  [text_of] is the
    document store's chunk text. *)
Definition search (text_of : nat -> JsString) (index : Index) (q : Vector)
    (k : nat) : list Hit :=
  firstn k
    (rank (map (fun e => mkHit (fst e) (inner_product q (snd e))
                           (text_of (fst e))) index)).

(** Non-increasing similarity between a hit and a later one. *)
Definition not_below (h h' : Hit) : Prop :=
  (similarity_score h' <= similarity_score h)%Q.

End VectorIndex.


(* ================================================================== *)
(** * Properties of the front end *)
(* ================================================================== *)

Lemma JS_eqb_eq : forall s t, JS.eqb s t = true <-> s = t.
Proof.
  induction s as [|c s IH]; destruct t as [|d t]; simpl; split;
    try discriminate; try reflexivity.
  - rewrite andb_true_iff, N.eqb_eq, IH. intros [-> ->]. reflexivity.
  - intros H. injection H as -> ->. rewrite andb_true_iff, N.eqb_eq, IH. auto.
Qed.

Lemma trimStart_all_whitespace : forall s,
  forallb isWhiteSpace s = true -> trimStart s = [].
Proof.
  induction s as [|c s IH]; simpl; [reflexivity|].
  rewrite andb_true_iff. intros [Hc Hs]. rewrite Hc. auto.
Qed.

Lemma trim_all_whitespace : forall s,
  forallb isWhiteSpace s = true -> trim s = [].
Proof.
  intros s H. unfold trim. rewrite (trimStart_all_whitespace s H). reflexivity.
Qed.

Lemma falsy_false : forall s, falsy s = false <-> s <> [].
Proof. destruct s; simpl; split; congruence. Qed.

Example trim_strips_both_ends : trim (js "  hi there  ") = js "hi there".
Proof. reflexivity. Qed.

Example blank_question_is_not_sent :
  handler_effects
    (run [DropFiles [sample_file]; FilesRead 0 no_table;
          UploadResolved sample_document; ChangeQuestion (js "   ")])
    (Submit 1000%N) = [].
Proof. reflexivity. Qed.

Example second_upload_keeps_selection :
  documents
    (run [DropFiles [sample_file]; FilesRead 0 no_table;
          UploadResolved sample_document;
          DropFiles [sample_file]; FilesRead 0 no_table;
          UploadResolved other_document])
  = [sample_document; other_document] /\
  selectedDocument
    (run [DropFiles [sample_file]; FilesRead 0 no_table;
          UploadResolved sample_document;
          DropFiles [sample_file]; FilesRead 0 no_table;
          UploadResolved other_document])
  = Some sample_document.
Proof. split; reflexivity. Qed.

Example unlisted_file_is_rejected :
  dropzone_acceptedFiles [mkFile (js "song.mp3") (js "audio/mpeg")] = [].
Proof. reflexivity. Qed.

Example two_files_are_rejected :
  dropzone_acceptedFiles [sample_file; sample_file] = [].
Proof. reflexivity. Qed.

Ltac unfold_step :=
  unfold step, handler_effects, closed_over, settle, perform_all, onDrop,
    onDrop_resolved,
    onDrop_rejected, handleDocumentUploaded, handleDocumentSelect,
    handleSubmit, handleSubmit_resolved, handleSubmit_rejected,
    handleNewMessage in *.

Lemma query_invariant_step : forall w ev,
  query_invariant w -> query_invariant (step w ev).
Proof.
  intros [ds sel ms q l u us qs ups dps] ev [H1 H2]; simpl in *.
  unfold query_invariant.
  destruct ev as [files | k table | k | data | err | i | q' | now
                 | response now | now];
    unfold_step; simpl.
  - destruct u; simpl; auto.
  - destruct (nth_error dps k) as [[files c]|]; simpl; [|auto].
    destruct (dropzone_acceptedFiles (fromEvent table files)); simpl; auto.
  - auto.
  - destruct ups as [|[f [d|]] ups]; simpl; auto.
  - destruct ups; simpl; auto.
  - destruct (nth_error ds i); simpl; auto.
  - destruct sel; [destruct l|]; simpl; auto.
  - (* Submit: a request is sent only when nothing is in flight *)
    destruct sel as [doc|]; simpl; [|auto].
    destruct (falsy (trim q) || l) eqn:G; simpl; [auto|].
    apply orb_false_iff in G as [_ ->].
    destruct qs as [|p qs]; [simpl; split; [reflexivity | lia]|].
    discriminate (H1 ltac:(discriminate)).
  - (* QueryResolved *)
    destruct qs as [|p qs]; simpl; [auto|].
    destruct qs; simpl in *; [split; [congruence | lia] | lia].
  - (* QueryRejected *)
    destruct qs as [|p qs]; simpl; [auto|].
    destruct qs; simpl in *; [split; [congruence | lia] | lia].
Qed.

Lemma in_without : forall (A : Type) k (l : list A) x,
  In x (without k l) -> In x l.
Proof.
  intros A k l x H. unfold without in H.
  rewrite <- (firstn_skipn k l).
  apply in_app_or in H as [H|H]; apply in_or_app; [left; exact H|].
  right. rewrite <- (firstn_skipn 1 (skipn k l)), skipn_skipn.
  apply in_or_app. right. exact H.
Qed.

Lemma in_in_front : forall (A : Type) k (l : list A) x,
  In x (in_front k l) -> In x l.
Proof.
  intros A k l x. unfold in_front.
  destruct (nth_error l k) as [y|] eqn:E; [|auto].
  intros [<-|H]; [eapply nth_error_In, E | eapply in_without, H].
Qed.

Lemma in_front_nil : forall (A : Type) k (l : list A),
  in_front k l = [] -> l = [].
Proof.
  intros A k l. unfold in_front.
  destruct (nth_error l k); [discriminate | auto].
Qed.

Lemma upload_invariant_step : forall w ev,
  upload_invariant w -> upload_invariant (step w ev).
Proof.
  intros [ds sel ms q l u us qs ups dps] ev (H1 & H2 & H3 & H4); simpl in *.
  unfold upload_invariant.
  destruct ev as [files | k table | k | data | err | i | q' | now
                 | response now | now];
    unfold_step; simpl.
  - (* DropFiles: the drop closes over the selection there is *)
    destruct u; simpl; [auto|].
    repeat split; auto.
    intros fs d H. apply in_app_or in H as [H|[H|[]]]; [eapply H3, H|].
    injection H as _ ->. discriminate.
  - (* FilesRead: the upload takes over what the drop closed over *)
    destruct (nth_error dps k) as [[files c]|] eqn:E; simpl.
    + assert (D : forall fs d, In (fs, Some d) (without k dps) -> sel <> None).
      { intros fs d H. eapply H3, in_without, H. }
      destruct (dropzone_acceptedFiles (fromEvent table files)) as [|f fs];
        simpl; repeat split; auto.
      * intros _ N. apply app_eq_nil in N as [_ N]. discriminate.
      * intros f0 d H. apply in_app_or in H as [H|[H|[]]]; [eapply H2, H|].
        injection H as _ ->. eapply H3, nth_error_In, E.
    + repeat split; auto.
      intros fs d H. eapply H3, in_without, H.
  - (* UploadOvertakes *)
    repeat split; auto.
    + intros U N. apply in_front_nil in N. exact (H1 U N).
    + intros f d H. eapply H2, in_in_front, H.
  - (* UploadResolved *)
    destruct ups as [|[f c] ups]; simpl; [auto|].
    destruct c as [d0|]; simpl; repeat split;
      try solve [auto | discriminate].
    + intros f0 d H. eapply H2. right. exact H.
    + intros S. elim (H2 f d0 (or_introl eq_refl)). exact S.
  - (* UploadRejected *)
    destruct ups as [|[f c] ups]; simpl; [auto|].
    repeat split; try solve [auto | discriminate].
    intros f0 d H. eapply H2. right. exact H.
  - (* ClickDocument *)
    destruct (nth_error ds i) as [doc|] eqn:E; simpl; [|auto].
    repeat split; try solve [auto | discriminate].
  - (* ChangeQuestion *)
    destruct sel; [destruct l|]; simpl; auto.
  - (* Submit *)
    destruct sel; simpl; [|auto].
    destruct (falsy (trim q) || l); simpl; auto.
  - destruct qs; simpl; auto.
  - destruct qs; simpl; auto.
Qed.

Lemma invariants_run : forall evs,
  upload_invariant (run evs) /\ query_invariant (run evs).
Proof.
  intros evs. unfold run.
  induction evs as [|ev evs IH] using rev_ind.
  - simpl. unfold upload_invariant, query_invariant. simpl.
    repeat split; solve [auto | congruence | contradiction | lia].
  - rewrite fold_left_app. simpl. destruct IH as [U Q]. split.
    + apply upload_invariant_step, U.
    + apply query_invariant_step, Q.
Qed.

(** ** Selecting a document *)

(** C8. Selecting a document in the document list resets the chat
    message history to empty and makes the chosen document the selected
    one, while the list of uploaded documents stays as it is; this holds
    for every selection, the currently selected document included. *)
Theorem select_document_resets_chat : forall w i doc,
  nth_error (documents w) i = Some doc ->
  messages (step w (ClickDocument i)) = [] /\
  selectedDocument (step w (ClickDocument i)) = Some doc /\
  documents (step w (ClickDocument i)) = documents w.
Proof.
  intros w i doc E. unfold step, handler_effects. rewrite E.
  unfold handleDocumentSelect, perform_all, settle. simpl. auto.
Qed.

(** Re-selecting the selected document of a page with a message. *)
Lemma select_document_resets_chat_witness :
  selectedDocument (run asked) = Some sample_document /\
  messages (run asked) <> [] /\
  messages (step (run asked) (ClickDocument 0)) = [] /\
  selectedDocument (step (run asked) (ClickDocument 0)) = Some sample_document /\
  documents (step (run asked) (ClickDocument 0)) = documents (run asked).
Proof.
  split; [reflexivity|]. split; [discriminate|].
  apply (select_document_resets_chat (run asked) 0 sample_document).
  reflexivity.
Defined.

(** ** Uploading a document *)

(** C9. A successful upload is meant to select its document only when
    none is selected.  Here two files are dropped before the dropzone is
    rendered disabled; both uploads closed over an empty selection; the
    first answer selects its document, and the second answer, arriving
    while that document is selected, replaces the selection. *)
Theorem second_upload_replaces_selection :
  uploads_in_flight (run two_uploads) <> [] /\
  selectedDocument (run two_uploads) = Some sample_document /\
  In (setSelectedDocument other_document)
     (handler_effects (run two_uploads) (UploadResolved other_document)) /\
  selectedDocument (step (run two_uploads) (UploadResolved other_document))
    = Some other_document /\
  documents (step (run two_uploads) (UploadResolved other_document))
    = [sample_document; other_document].
Proof.
  split; [vm_compute; discriminate|].
  split; [reflexivity|].
  split; [vm_compute; auto|].
  split; reflexivity.
Qed.

(** ** A failed query *)

(** C6. A query whose request fails aborts that query alone and shows a
    chat error message: the documents, the selection and the earlier
    messages stay as they are, the error message is appended, the other
    requests in flight are untouched, and the failure sends no request
    again. *)
Theorem query_failure_is_local : forall w now,
  queries_in_flight w <> [] ->
  documents (step w (QueryRejected now)) = documents w /\
  selectedDocument (step w (QueryRejected now)) = selectedDocument w /\
  messages (step w (QueryRejected now)) = messages w ++ [errorMessage now] /\
  errorMessage now
    = mkMessage (now + 1) assistant
        (js "Sorry, I encountered an error while processing your question. Please try again.")
        None true now /\
  msg_type (errorMessage now) = assistant /\
  msg_content (errorMessage now) <> [] /\
  msg_error (errorMessage now) = true /\
  isLoading (step w (QueryRejected now)) = false /\
  queries_in_flight (step w (QueryRejected now)) = tl (queries_in_flight w) /\
  uploads_in_flight (step w (QueryRejected now)) = uploads_in_flight w /\
  sends_query (handler_effects w (QueryRejected now)) = false.
Proof.
  intros [ds sel ms q l u us qs ups dps] now H; simpl in *.
  destruct qs as [|p qs]; [congruence|].
  unfold_step; simpl. repeat split. discriminate.
Qed.

Lemma query_failure_is_local_witness :
  messages (step (run asked) (QueryRejected 2000%N))
    = messages (run asked) ++ [errorMessage 2000%N] /\
  queries_in_flight (step (run asked) (QueryRejected 2000%N)) = [].
Proof.
  destruct (query_failure_is_local (run asked) 2000%N
              ltac:(vm_compute; discriminate))
    as (_ & _ & M & _ & _ & _ & _ & _ & Q & _).
  split; [exact M | exact Q].
Defined.

(** ** Submitting a question *)

(** C10. A submit sends a query request only if the trimmed question is
    not empty (so the question is neither empty nor made of white space
    only) and no query is loading; whenever a request is sent, none is
    in flight. *)
Theorem submit_sends_only_when_idle : forall evs now d q,
  In (post_query d q) (handler_effects (run evs) (Submit now)) ->
  trim (question (run evs)) <> [] /\
  forallb isWhiteSpace (question (run evs)) = false /\
  isLoading (run evs) = false /\
  queries_in_flight (run evs) = [] /\
  submit_disabled (question (run evs)) (isLoading (run evs)) = false /\
  q = question (run evs).
Proof.
  intros evs now d q Hin.
  destruct (invariants_run evs) as [_ [Q1 _]].
  destruct (run evs) as [ds sel ms qn l u us qs ups]; simpl in *.
  destruct sel as [doc|]; [|contradiction].
  unfold handleSubmit in Hin.
  unfold submit_disabled.
  destruct (falsy (trim qn) || l) eqn:G; [contradiction|].
  apply orb_false_iff in G as [G1 G2]. subst l.
  apply falsy_false in G1.
  repeat split.
  - exact G1.
  - destruct (forallb isWhiteSpace qn) eqn:W; [|reflexivity].
    elim G1. apply trim_all_whitespace, W.
  - destruct qs as [|p qs]; [reflexivity|].
    discriminate (Q1 ltac:(discriminate)).
  - simpl in Hin. destruct Hin as [H|[H|[H|[H|[]]]]]; try discriminate.
    congruence.
Qed.

Lemma submit_sends_only_when_idle_witness :
  trim (js "What is it about?") <> [] /\
  queries_in_flight
    (run [DropFiles [sample_file]; FilesRead 0 no_table;
          UploadResolved sample_document;
          ChangeQuestion (js "What is it about?")]) = [].
Proof.
  destruct (submit_sends_only_when_idle
              [DropFiles [sample_file]; FilesRead 0 no_table;
               UploadResolved sample_document;
               ChangeQuestion (js "What is it about?")]
              1000%N (js "d1") (js "What is it about?")
              ltac:(vm_compute; auto 6))
    as (T & _ & _ & Q & _).
  split; [exact T | exact Q].
Defined.

(** ** Dropping a file *)








(** A page without a type from the browser is uploaded when the
    extension table knows its extension. *)
Example htm_page_is_uploaded :
  handler_effects (step initial (DropFiles [mkFile (js "page.htm") []]))
    (FilesRead 0 htm_table)
  = [setUploading true; setUploadStatus None;
     post_upload (mkFile (js "page.htm") (js "text/html"))].
Proof. reflexivity. Qed.

(* ================================================================== *)
(** * More properties of the front end *)
(* ================================================================== *)

Lemma trimStart_nil : forall s,
  trimStart s = [] -> forallb isWhiteSpace s = true.
Proof.
  induction s as [|c s IH]; simpl; [reflexivity|].
  destruct (isWhiteSpace c); [exact IH | discriminate].
Qed.

Lemma trimStart_keeps_whitespace : forall s,
  forallb isWhiteSpace (trimStart s) = true -> forallb isWhiteSpace s = true.
Proof.
  induction s as [|c s IH]; simpl; [reflexivity|].
  destruct (isWhiteSpace c) eqn:E; simpl.
  - exact IH.
  - rewrite E. simpl. discriminate.
Qed.

Lemma forallb_rev : forall (f : N -> bool) s,
  forallb f (rev s) = forallb f s.
Proof.
  intros f s. induction s as [|c s IH]; simpl; [reflexivity|].
  rewrite forallb_app, IH. simpl. rewrite andb_true_r. apply andb_comm.
Qed.

(** The trimmed string is empty exactly for a string of white space. *)
Lemma trim_nil_iff : forall s,
  trim s = [] <-> forallb isWhiteSpace s = true.
Proof.
  intros s. split; [|apply trim_all_whitespace].
  unfold trim, trimEnd. intros H.
  apply trimStart_keeps_whitespace.
  rewrite <- forallb_rev. apply trimStart_nil.
  rewrite <- (rev_involutive (trimStart (rev (trimStart s)))), H.
  reflexivity.
Qed.

Lemma page_invariant_step : forall w ev,
  query_invariant w -> page_invariant w -> page_invariant (step w ev).
Proof.
  intros [ds sel ms q l u us qs ups dps] ev (Q1 & Q2)
    (P1 & P2 & P5 & P6); simpl in *.
  unfold page_invariant.
  destruct ev as [files | k table | k | data | err | i | q' | now
                 | response now | now];
    unfold_step; simpl.
  - (* DropFiles *)
    destruct u; simpl; repeat split; auto.
  - (* FilesRead *)
    destruct (nth_error dps k) as [[files c]|]; simpl;
      [|repeat split; auto].
    destruct (dropzone_acceptedFiles (fromEvent table files)); simpl;
      repeat split; auto.
  - (* UploadOvertakes *)
    repeat split; auto.
  - (* UploadResolved *)
    destruct ups as [|[f c] ups]; simpl; [repeat split; auto|].
    assert (G : forall d q0, In (d, q0) qs ->
              exists doc, In doc (ds ++ [data]) /\ doc_id doc = d).
    { intros d q0 Hq. destruct (P6 d q0 Hq) as (doc & I & E).
      exists doc. split; [apply in_or_app; left; exact I | exact E]. }
    destruct c as [d0|]; simpl; repeat split; auto.
    + intros d Hd. apply in_or_app. left. apply P5, Hd.
    + intros d Hd. injection Hd as <-. apply in_or_app. right. left.
      reflexivity.
  - (* UploadRejected *)
    destruct ups as [|[f c] ups]; simpl; repeat split; auto.
  - (* ClickDocument *)
    destruct (nth_error ds i) as [doc|] eqn:E; simpl; [|repeat split; auto].
    repeat split; auto.
    intros d Hd. injection Hd as <-. eapply nth_error_In, E.
  - (* ChangeQuestion *)
    destruct sel as [d0|]; [destruct l eqn:El|]; simpl;
      repeat split; auto; discriminate.
  - (* Submit *)
    destruct sel as [d0|]; simpl; [|repeat split; auto].
    destruct (falsy (trim q) || l) eqn:G; simpl; [repeat split; auto|].
    repeat split; auto.
    + intros _ E. apply app_eq_nil in E as [_ E]. discriminate.
    + intros d q0 Hq. apply in_app_or in Hq as [Hq|[Hq|[]]].
      * apply (P6 d q0 Hq).
      * injection Hq as <- <-. exists d0. split; [apply P5|]; reflexivity.
  - (* QueryResolved *)
    destruct qs as [|p qs]; simpl; [repeat split; auto|].
    destruct qs as [|p' qs]; [|simpl in Q2; lia].
    simpl. repeat split; try solve [auto | discriminate | contradiction].
  - (* QueryRejected *)
    destruct qs as [|p qs]; simpl; [repeat split; auto|].
    destruct qs as [|p' qs]; [|simpl in Q2; lia].
    simpl. repeat split; try solve [auto | discriminate | contradiction].
Qed.

Lemma page_invariant_run : forall evs, page_invariant (run evs).
Proof.
  intros evs.
  induction evs as [|ev evs IH] using rev_ind.
  - unfold run, page_invariant. simpl.
    repeat split; solve [discriminate | contradiction | auto].
  - destruct (invariants_run evs) as [_ Q].
    unfold run in *. rewrite fold_left_app. simpl.
    apply page_invariant_step; assumption.
Qed.

(** ** A failed upload *)

(** X1. An upload whose request fails touches nothing but the upload
    card: documents, selection, chat and the queries in flight stay as
    they are, the dropzone is enabled again, the status is an error
    carrying the server's message when there is a non-empty one and
    "Failed to upload document" otherwise, and nothing is sent again. *)
Theorem upload_failure_is_local : forall w err,
  uploads_in_flight w <> [] ->
  documents (step w (UploadRejected err)) = documents w /\
  selectedDocument (step w (UploadRejected err)) = selectedDocument w /\
  messages (step w (UploadRejected err)) = messages w /\
  question (step w (UploadRejected err)) = question w /\
  isLoading (step w (UploadRejected err)) = isLoading w /\
  queries_in_flight (step w (UploadRejected err)) = queries_in_flight w /\
  uploading (step w (UploadRejected err)) = false /\
  uploads_in_flight (step w (UploadRejected err)) = tl (uploads_in_flight w) /\
  uploadStatus (step w (UploadRejected err))
    = Some (mkUploadStatus error
              match err with
              | Some (c :: m) => c :: m
              | _ => js "Failed to upload document"
              end) /\
  existsb is_post_upload (handler_effects w (UploadRejected err)) = false /\
  sends_query (handler_effects w (UploadRejected err)) = false.
Proof.
  intros [ds sel ms q l u us qs ups dps] err H; simpl in *.
  destruct ups as [|p ups]; [congruence|].
  unfold_step; simpl.
  destruct err as [[|c m]|]; simpl; repeat split.
Qed.

Lemma upload_failure_is_local_witness :
  documents (step (run dropped) (UploadRejected None)) = [] /\
  uploading (step (run dropped) (UploadRejected None)) = false /\
  uploadStatus (step (run dropped) (UploadRejected None))
    = Some (mkUploadStatus error (js "Failed to upload document")).
Proof.
  destruct (upload_failure_is_local (run dropped) None
              ltac:(vm_compute; discriminate))
    as (D & _ & _ & _ & _ & _ & U & _ & S & _).
  split; [exact D|]. split; [exact U | exact S].
Defined.

(** ** The busy flags *)



(** X3. On every page that can be reached [isLoading] holds exactly
    while a query is in flight (so the "Thinking..." row and the
    disabled input show exactly then), at most one query is in flight,
    the input is empty while it is, and typing meanwhile does
    nothing. *)
Theorem loading_iff_query_in_flight : forall evs,
  (isLoading (run evs) = true <-> queries_in_flight (run evs) <> []) /\
  length (queries_in_flight (run evs)) <= 1 /\
  (queries_in_flight (run evs) <> [] -> question (run evs) = []) /\
  (forall q, queries_in_flight (run evs) <> [] ->
     step (run evs) (ChangeQuestion q) = run evs).
Proof.
  intros evs.
  destruct (invariants_run evs) as [_ (Q1 & Q2)].
  destruct (page_invariant_run evs) as (P1 & P2 & _).
  repeat split; auto.
  intros q H. unfold step, handler_effects. rewrite (Q1 H).
  destruct (selectedDocument (run evs)); reflexivity.
Qed.

(** ** Submitting a question, both ways *)

(** X4. With a document selected, a submit sends a request exactly when
    the question has a character that is not white space and no query
    is loading, which is exactly when the submit button is enabled.  A
    submit that sends appends the user message, clears the input, sets
    [isLoading] and posts the question as typed, untrimmed, for the
    selected document; a submit that does not send does nothing. *)
Theorem submit_sends_iff_enabled : forall w document now,
  selectedDocument w = Some document ->
  (sends_query (handler_effects w (Submit now)) = true <->
   forallb isWhiteSpace (question w) = false /\ isLoading w = false) /\
  sends_query (handler_effects w (Submit now))
    = negb (submit_disabled (question w) (isLoading w)) /\
  handler_effects w (Submit now)
    = (if submit_disabled (question w) (isLoading w) then []
       else [setMessages_append (userMessage (question w) now);
             setQuestion []; setIsLoading true;
             post_query (doc_id document) (question w)]).
Proof.
  intros w document now S. unfold handler_effects. rewrite S.
  unfold handleSubmit, submit_disabled, handleNewMessage.
  destruct (falsy (trim (question w)) || isLoading w) eqn:G; simpl.
  - repeat split; try discriminate.
    intros [W L]. rewrite L, orb_false_r in G.
    destruct (trim (question w)) eqn:T; [|discriminate].
    apply trim_nil_iff in T. congruence.
  - apply orb_false_iff in G as [G1 G2]. repeat split; auto.
    destruct (forallb isWhiteSpace (question w)) eqn:W; [|reflexivity].
    apply trim_nil_iff in W. rewrite W in G1. discriminate.
Qed.

Lemma submit_sends_iff_enabled_witness :
  sends_query (handler_effects (run typed) (Submit 1000%N)) = true.
Proof.
  destruct (submit_sends_iff_enabled (run typed) sample_document 1000%N
              eq_refl) as (_ & E & _).
  rewrite E. reflexivity.
Defined.

(** X5. On a page that can be reached, a submit that sends, followed by
    the answer, leaves the earlier messages in place and adds exactly
    the user message and then the assistant message with the answer and
    its sources; the input is empty, nothing is loading or in flight,
    and documents and selection are as before. *)
Theorem submit_then_answer : forall evs now response later,
  sends_query (handler_effects (run evs) (Submit now)) = true ->
  messages (step (step (run evs) (Submit now)) (QueryResolved response later))
    = messages (run evs)
      ++ [userMessage (question (run evs)) now;
          assistantMessage response later] /\
  msg_content (assistantMessage response later) = resp_answer response /\
  msg_sources (assistantMessage response later)
    = Some (resp_sources response) /\
  question (step (step (run evs) (Submit now)) (QueryResolved response later))
    = [] /\
  isLoading (step (step (run evs) (Submit now)) (QueryResolved response later))
    = false /\
  queries_in_flight
    (step (step (run evs) (Submit now)) (QueryResolved response later)) = [] /\
  documents (step (step (run evs) (Submit now)) (QueryResolved response later))
    = documents (run evs) /\
  selectedDocument
    (step (step (run evs) (Submit now)) (QueryResolved response later))
    = selectedDocument (run evs).
Proof.
  intros evs now response later H.
  destruct (invariants_run evs) as [_ (Q1 & _)].
  destruct (run evs) as [ds sel ms q l u us qs ups dps]; simpl in *.
  destruct sel as [d|]; [|discriminate].
  unfold_step. simpl in *.
  destruct (falsy (trim q) || l) eqn:G; [discriminate|].
  apply orb_false_iff in G as [_ ->].
  destruct qs as [|p qs]; [|discriminate (Q1 ltac:(discriminate))].
  simpl. rewrite <- app_assoc. repeat split.
Qed.

Lemma submit_then_answer_witness :
  messages
    (step (step (run typed) (Submit 1000%N))
       (QueryResolved sample_response 2000%N))
  = [userMessage (js "What is it about?") 1000%N;
     assistantMessage sample_response 2000%N].
Proof.
  destruct (submit_then_answer typed 1000%N sample_response 2000%N
              ltac:(vm_compute; reflexivity)) as (M & _).
  exact M.
Defined.

(** ** What the lists keep *)

Lemma step_documents : forall w ev,
  exists more, documents (step w ev) = documents w ++ more /\ length more <= 1.
Proof.
  intros [ds sel ms q l u us qs ups dps] ev.
  destruct ev as [files | k table | k | data | err | i | q' | now
                 | response now | now];
    unfold_step; simpl.
  - destruct u; simpl; exists []; rewrite app_nil_r; auto.
  - destruct (nth_error dps k) as [[files c]|]; simpl;
      [destruct (dropzone_acceptedFiles (fromEvent table files))|]; simpl;
      exists []; rewrite app_nil_r; auto.
  - exists []. rewrite app_nil_r. auto.
  - destruct ups as [|[f [d|]] ups]; simpl;
      solve [exists []; rewrite app_nil_r; auto | exists [data]; auto].
  - destruct ups; simpl; exists []; rewrite app_nil_r; auto.
  - destruct (nth_error ds i); simpl; exists []; rewrite app_nil_r; auto.
  - destruct sel; [destruct l|]; simpl; exists []; rewrite app_nil_r; auto.
  - destruct sel; [destruct (falsy (trim q) || l)|]; simpl;
      exists []; rewrite app_nil_r; auto.
  - destruct qs; simpl; exists []; rewrite app_nil_r; auto.
  - destruct qs; simpl; exists []; rewrite app_nil_r; auto.
Qed.

(** X7. The document list only grows: whatever happens after a page was
    reached, the documents listed then are still listed, in the same
    order and at the front, and each event adds one document at most.
    Nothing removes or reorders a document. *)
Theorem documents_only_grow : forall evs evs',
  exists more,
    documents (run (evs ++ evs')) = documents (run evs) ++ more /\
    length more <= length evs'.
Proof.
  intros evs evs'. unfold run. rewrite fold_left_app.
  generalize (fold_left step evs initial) as w.
  induction evs' as [|ev evs' IH]; intros w; simpl.
  - exists []. rewrite app_nil_r. auto.
  - destruct (step_documents w ev) as (m1 & E1 & L1).
    destruct (IH (step w ev)) as (m2 & E2 & L2).
    exists (m1 ++ m2). rewrite E2, E1, <- app_assoc, length_app.
    split; [reflexivity | lia].
Qed.

(** X8. Only the selection of a document removes chat messages: every
    other event keeps the messages there are and adds one at most
    behind them. *)
Theorem messages_kept_unless_selected : forall w ev,
  (forall i, ev <> ClickDocument i) ->
  exists more,
    messages (step w ev) = messages w ++ more /\ length more <= 1.
Proof.
  intros [ds sel ms q l u us qs ups dps] ev N.
  destruct ev as [files | k table | k | data | err | i | q' | now
                 | response now | now];
    unfold_step; simpl.
  - destruct u; simpl; exists []; rewrite app_nil_r; auto.
  - destruct (nth_error dps k) as [[files c]|]; simpl;
      [destruct (dropzone_acceptedFiles (fromEvent table files))|]; simpl;
      exists []; rewrite app_nil_r; auto.
  - exists []. rewrite app_nil_r. auto.
  - destruct ups as [|[f [d|]] ups]; simpl; exists []; rewrite app_nil_r; auto.
  - destruct ups; simpl; exists []; rewrite app_nil_r; auto.
  - elim (N i). reflexivity.
  - destruct sel; [destruct l|]; simpl; exists []; rewrite app_nil_r; auto.
  - destruct sel; [destruct (falsy (trim q) || l)|]; simpl;
      solve [exists []; rewrite app_nil_r; auto | eexists; split; [reflexivity | simpl; lia]].
  - destruct qs; simpl;
      solve [exists []; rewrite app_nil_r; auto | eexists; split; [reflexivity | simpl; lia]].
  - destruct qs; simpl;
      solve [exists []; rewrite app_nil_r; auto | eexists; split; [reflexivity | simpl; lia]].
Qed.

Lemma messages_kept_unless_selected_witness :
  exists more,
    messages (step (run asked) (QueryRejected 2000%N))
    = messages (run asked) ++ more /\ length more <= 1.
Proof.
  apply (messages_kept_unless_selected (run asked) (QueryRejected 2000%N)).
  intros i. discriminate.
Defined.

(** ** The selection and the list *)

(** X6. On every page that can be reached the selected document is one
    of the listed documents, and the chat is shown exactly when the
    list is not empty: before the first successful upload there is
    neither a selection nor a document, afterwards there always is a
    selection. *)
Theorem selected_document_is_listed : forall evs,
  (forall d, selectedDocument (run evs) = Some d ->
     In d (documents (run evs))) /\
  (selectedDocument (run evs) = None <-> documents (run evs) = []) /\
  chat_shown (selectedDocument (run evs))
    = negb (Nat.eqb (length (documents (run evs))) 0).
Proof.
  intros evs.
  destruct (invariants_run evs) as [(_ & _ & _ & U4) _].
  destruct (page_invariant_run evs) as (_ & _ & P5 & _).
  assert (E : selectedDocument (run evs) = None <-> documents (run evs) = []).
  { split; [exact U4|]. intros D.
    destruct (selectedDocument (run evs)) as [d|] eqn:S; [|reflexivity].
    specialize (P5 d eq_refl). rewrite D in P5. contradiction. }
  split; [exact P5|]. split; [exact E|].
  destruct (selectedDocument (run evs)) as [d|] eqn:S; simpl.
  - destruct (documents (run evs)) eqn:D; [|reflexivity].
    destruct E as [_ E]. discriminate (E eq_refl).
  - destruct E as [E _]. rewrite (E eq_refl). reflexivity.
Qed.

(** X10. On every page that can be reached DocumentList shows its empty
    card exactly when nothing is selected; otherwise it shows one button
    per document in the order of the list, a button is highlighted
    exactly when its document has the id of the selected one, and the
    button of the selected document is among them and highlighted. *)
Theorem document_list_highlights_selected : forall evs,
  (DocumentList (documents (run evs)) (selectedDocument (run evs)) = None
   <-> selectedDocument (run evs) = None) /\
  (forall d, selectedDocument (run evs) = Some d ->
     exists bs,
       DocumentList (documents (run evs)) (selectedDocument (run evs))
         = Some bs /\
       map button_document bs = documents (run evs) /\
       (forall b, In b bs ->
          (button_highlighted b = true
           <-> doc_id (button_document b) = doc_id d)) /\
       (exists b, In b bs /\ button_document b = d /\
                  button_highlighted b = true)).
Proof.
  intros evs.
  destruct (invariants_run evs) as [(_ & _ & _ & U4) _].
  destruct (page_invariant_run evs) as (_ & _ & P5 & _).
  destruct (run evs) as [ds sel ms q l u us qs ups dps]; simpl in *.
  unfold DocumentList. split.
  - destruct ds as [|d0 ds]; simpl.
    + split; [intros _|reflexivity].
      destruct sel as [d|]; [elim (P5 d eq_refl) | reflexivity].
    + split; [discriminate|]. intros S. discriminate (U4 S).
  - intros d S. subst sel. specialize (P5 d eq_refl).
    destruct ds as [|d0 ds]; [contradiction|].
    change (Nat.eqb (length (d0 :: ds)) 0) with false. cbv iota.
    eexists. split; [reflexivity|].
    split; [rewrite map_map; apply map_id|].
    split.
    + intros b Hb. apply in_map_iff in Hb as (doc & <- & _). simpl.
      rewrite JS_eqb_eq. split; congruence.
    + exists (mkDocumentButton d (JS.eqb (doc_id d) (doc_id d))
                (document_label d)).
      split; [|split; [reflexivity|]].
      * apply in_map_iff. exists d. split; [reflexivity | exact P5].
      * simpl. apply JS_eqb_eq. reflexivity.
Qed.

(** ** Switching documents while a query is in flight *)

(** X9. Selecting a document does not cancel a query in flight: the
    request stays in flight and [isLoading] stays as it is, and when the
    answer arrives it is appended to the chat that the selection has
    just emptied, under the newly selected document. *)
Theorem selection_keeps_query_in_flight : forall w i doc response now,
  queries_in_flight w <> [] ->
  nth_error (documents w) i = Some doc ->
  queries_in_flight (step w (ClickDocument i)) = queries_in_flight w /\
  isLoading (step w (ClickDocument i)) = isLoading w /\
  selectedDocument
    (step (step w (ClickDocument i)) (QueryResolved response now))
    = Some doc /\
  messages (step (step w (ClickDocument i)) (QueryResolved response now))
    = [assistantMessage response now].
Proof.
  intros [ds sel ms q l u us qs ups dps] i doc response now H E; simpl in *.
  destruct qs as [|p qs]; [congruence|].
  unfold_step; simpl. rewrite E. simpl. repeat split.
Qed.

Lemma selection_keeps_query_in_flight_witness :
  messages
    (step (step (run asked) (ClickDocument 0))
       (QueryResolved sample_response 2000%N))
  = [assistantMessage sample_response 2000%N].
Proof.
  destruct (selection_keeps_query_in_flight (run asked) 0 sample_document
              sample_response 2000%N
              ltac:(vm_compute; discriminate) eq_refl) as (_ & _ & _ & M).
  exact M.
Defined.

(** ** The documents that are asked about *)

(** X11. On every page that can be reached a query in flight names the
    id of a listed document, also after the selection has moved on. *)
Theorem query_in_flight_names_listed_document : forall evs d q,
  In (d, q) (queries_in_flight (run evs)) ->
  exists doc, In doc (documents (run evs)) /\ doc_id doc = d.
Proof.
  intros evs d q H.
  destruct (page_invariant_run evs) as (_ & _ & _ & P6).
  exact (P6 d q H).
Qed.

Lemma query_in_flight_names_listed_document_witness :
  exists doc, In doc (documents (run asked)) /\ doc_id doc = js "d1".
Proof.
  apply (query_in_flight_names_listed_document asked (js "d1")
           (js "What is it about?")).
  vm_compute. auto.
Defined.

(** ** A successful upload and the chat *)

(** X12. A successful upload leaves the chat alone: the messages, the
    input, [isLoading] and the queries in flight stay as they are, no
    request is sent, the dropzone is enabled again and the status says
    "Document uploaded successfully!". *)
Theorem upload_success_leaves_chat : forall w data,
  uploads_in_flight w <> [] ->
  messages (step w (UploadResolved data)) = messages w /\
  question (step w (UploadResolved data)) = question w /\
  isLoading (step w (UploadResolved data)) = isLoading w /\
  queries_in_flight (step w (UploadResolved data)) = queries_in_flight w /\
  uploading (step w (UploadResolved data)) = false /\
  uploads_in_flight (step w (UploadResolved data)) = tl (uploads_in_flight w) /\
  uploadStatus (step w (UploadResolved data))
    = Some (mkUploadStatus success (js "Document uploaded successfully!")) /\
  existsb is_post_upload (handler_effects w (UploadResolved data)) = false /\
  sends_query (handler_effects w (UploadResolved data)) = false.
Proof.
  intros [ds sel ms q l u us qs ups dps] data H; simpl in *.
  destruct ups as [|[f c] ups]; [congruence|].
  unfold_step; simpl.
  destruct c as [d|]; simpl; repeat split.
Qed.

Lemma upload_success_leaves_chat_witness :
  uploading (step (run dropped)
               (UploadResolved sample_document)) = false /\
  uploadStatus (step (run dropped)
                  (UploadResolved sample_document))
    = Some (mkUploadStatus success (js "Document uploaded successfully!")).
Proof.
  destruct (upload_success_leaves_chat (run dropped)
              sample_document ltac:(vm_compute; discriminate))
    as (_ & _ & _ & _ & U & _ & S & _).
  split; [exact U | exact S].
Defined.

(* ================================================================== *)
(** * Properties of the chunker *)
(* ================================================================== *)

Module ChunkerProps.

Import Chunker.

(** The chunk at position [i] of a pass is the window at the [i]-th
    start; a chunk that has a successor is a full window that stops
    before the end of the text. *)
Lemma windows_nth : forall (A : Type) fuel (source : list A) size step idx start i c,
  nth_error (windows fuel source size step idx start) i = Some c ->
  c = window source size (idx + i) (start + i * step) /\
  start + i * step < length source /\
  (forall d, nth_error (windows fuel source size step idx start) (S i) = Some d ->
     start + i * step + size < length source).
Proof.
  intros A fuel source size step.
  induction fuel as [|fuel IH]; intros idx start i c H; simpl in H.
  - destruct i; discriminate.
  - simpl. destruct (Nat.leb_spec (length source) start) as [L1|L1].
    { destruct i; discriminate. }
    destruct (Nat.leb_spec (length source) (start + size)) as [L2|L2].
    + destruct i as [|i]; [|destruct i; discriminate].
      injection H as <-. rewrite Nat.add_0_r. simpl. rewrite Nat.add_0_r.
      repeat split; [exact L1 | discriminate].
    + destruct i as [|i]; simpl in H.
      * injection H as <-. rewrite Nat.add_0_r. simpl. rewrite Nat.add_0_r.
        repeat split; [exact L1 | intros; exact L2].
      * apply IH in H as (E & B & N).
        replace (idx + S i) with (S idx + i) by lia.
        replace (start + S i * step) with (start + step + i * step) by lia.
        repeat split; [exact E | exact B | exact N].
Qed.

(** With enough fuel the pass reaches the end of the text: every
    position from [start] on lies in the range of an emitted chunk. *)
Lemma windows_cover : forall (A : Type) fuel (source : list A) size step idx start p,
  0 < step -> step <= size ->
  length source - start <= fuel ->
  start <= p < length source ->
  exists c, In c (windows fuel source size step idx start) /\
            char_start c <= p < char_end c.
Proof.
  intros A fuel source size step.
  induction fuel as [|fuel IH]; intros idx start p S1 S2 F P; [lia|].
  simpl. destruct (Nat.leb_spec (length source) start) as [L1|L1]; [lia|].
  destruct (Nat.leb_spec (length source) (start + size)) as [L2|L2].
  - exists (window source size idx start). split; [left; reflexivity|].
    simpl. lia.
  - destruct (Nat.lt_ge_cases p (start + size)) as [C|C].
    + exists (window source size idx start). split; [left; reflexivity|].
      simpl. lia.
    + destruct (IH (S idx) (start + step) p S1 S2 ltac:(lia) ltac:(lia))
        as (c & I & R).
      exists c. split; [right; exact I | exact R].
Qed.

(** With enough fuel the last chunk of the pass ends where the text
    ends. *)
Lemma windows_last : forall (A : Type) fuel (source : list A) size step idx start,
  0 < step -> step <= size ->
  length source - start <= fuel ->
  start < length source ->
  exists cs c, windows fuel source size step idx start = cs ++ [c] /\
               char_end c = length source.
Proof.
  intros A fuel source size step.
  induction fuel as [|fuel IH]; intros idx start S1 S2 F P; [lia|].
  simpl. destruct (Nat.leb_spec (length source) start) as [L1|L1]; [lia|].
  destruct (Nat.leb_spec (length source) (start + size)) as [L2|L2].
  - exists [], (window source size idx start). split; [reflexivity|].
    simpl. lia.
  - destruct (IH (S idx) (start + step) S1 S2 ltac:(lia) ltac:(lia))
      as (cs & c & E & R).
    exists (window source size idx start :: cs), c. rewrite E.
    split; [reflexivity | exact R].
Qed.

Lemma skipn_firstn_window : forall (A : Type) (l : list A) s n m,
  skipn m (firstn n (skipn s l)) = firstn (n - m) (skipn (s + m) l).
Proof.
  intros A l s n m. rewrite skipn_firstn_comm, skipn_skipn.
  f_equal. f_equal. lia.
Qed.

(** C3. For 0 < overlap < size, the chunks are the windows whose starts
    advance by size - overlap, each non-empty and cut from the text at
    its offset range; two consecutive chunks share exactly overlap
    positions and the same overlap tokens, the first of the two being a
    full window; the offset ranges cover every position of the text; and
    the final window, full or shorter, is emitted and ends where the
    text ends. *)
Theorem chunk_windows_overlap_cover : forall (A : Type) (source : list A) size overlap,
  0 < overlap -> overlap < size ->
  (forall i c, nth_error (chunk source size overlap) i = Some c ->
     sequence_index c = i /\
     char_start c = i * (size - overlap) /\
     char_end c = Nat.min (char_start c + size) (length source) /\
     char_start c < char_end c /\
     length (text c) = char_end c - char_start c /\
     text c = firstn (char_end c - char_start c) (skipn (char_start c) source)) /\
  (forall i c d,
     nth_error (chunk source size overlap) i = Some c ->
     nth_error (chunk source size overlap) (S i) = Some d ->
     char_start d = char_start c + (size - overlap) /\
     char_end c = char_start c + size /\
     shared c d = overlap /\
     skipn (size - overlap) (text c) = firstn overlap (text d)) /\
  (forall p, p < length source ->
     exists c, In c (chunk source size overlap) /\
               char_start c <= p < char_end c) /\
  (source <> [] ->
     exists cs c, chunk source size overlap = cs ++ [c] /\
                  char_end c = length source) /\
  (source = [] -> chunk source size overlap = []).
Proof.
  intros A source size overlap O1 O2.
  assert (W : forall i c, nth_error (chunk source size overlap) i = Some c ->
     c = window source size i (i * (size - overlap)) /\
     i * (size - overlap) < length source /\
     (forall d, nth_error (chunk source size overlap) (S i) = Some d ->
        i * (size - overlap) + size < length source)).
  { intros i c H. unfold chunk in H. apply windows_nth in H. exact H. }
  split; [|split; [|split; [|split]]].
  - intros i c H. apply W in H as (-> & B & _). simpl.
    rewrite length_firstn, length_skipn.
    repeat split; lia.
  - intros i c d Hc Hd.
    destruct (W i c Hc) as (-> & Bc & N). specialize (N d Hd).
    destruct (W (S i) d Hd) as (-> & Bd & _).
    unfold shared. simpl in *.
    repeat split; try lia.
    rewrite (Nat.min_l (i * (size - overlap) + size)) by lia.
    replace (i * (size - overlap) + size - i * (size - overlap)) with size
      by lia.
    rewrite skipn_firstn_window.
    replace (size - (size - overlap)) with overlap by lia.
    rewrite firstn_firstn.
    replace (size - overlap + i * (size - overlap))
      with (i * (size - overlap) + (size - overlap)) by lia.
    f_equal. lia.
  - intros p P. unfold chunk.
    apply windows_cover; lia.
  - intros NE. unfold chunk. apply windows_last; try lia.
    destruct source; [congruence | simpl; lia].
  - intros ->. reflexivity.
Qed.

(** A text of ten tokens chunked with size 5 and overlap 2: windows at
    0, 3 and 6, the last one shorter. *)
Example chunk_ten :
  map (fun c => (sequence_index c, char_start c, char_end c, text c))
      (chunk [0; 1; 2; 3; 4; 5; 6; 7; 8; 9] 5 2)
  = [ (0, 0, 5, [0; 1; 2; 3; 4]);
      (1, 3, 8, [3; 4; 5; 6; 7]);
      (2, 6, 10, [6; 7; 8; 9]) ].
Proof. reflexivity. Qed.

Lemma chunk_windows_overlap_cover_witness :
  exists c, In c (chunk [0; 1; 2; 3; 4; 5; 6; 7; 8; 9] 5 2) /\
            char_start c <= 9 < char_end c.
Proof.
  destruct (chunk_windows_overlap_cover nat [0; 1; 2; 3; 4; 5; 6; 7; 8; 9] 5 2
              ltac:(lia) ltac:(lia)) as (_ & _ & C & _).
  apply (C 9). simpl. lia.
Defined.


End ChunkerProps.

(* ================================================================== *)
(** * Properties of the vector index *)
(* ================================================================== *)

Module VectorIndexProps.

Import VectorIndex.

Lemma precedes_true : forall h h', precedes h h' = true -> not_below h h'.
Proof.
  intros h h'. unfold precedes, not_below.
  destruct (Qeq_bool (similarity_score h) (similarity_score h')) eqn:E.
  - intros _. apply Qeq_bool_iff in E. rewrite E. apply Qle_refl.
  - intros H. apply Qle_bool_iff, H.
Qed.

Lemma precedes_false : forall h h', precedes h h' = false -> not_below h' h.
Proof.
  intros h h'. unfold precedes, not_below.
  destruct (Qeq_bool (similarity_score h) (similarity_score h')) eqn:E.
  - intros _. apply Qeq_bool_iff in E. rewrite E. apply Qle_refl.
  - intros H. apply Qlt_le_weak, Qnot_le_lt.
    intros L. apply Qle_bool_iff in L. congruence.
Qed.

Lemma not_below_trans : forall a b c,
  not_below a b -> not_below b c -> not_below a c.
Proof. unfold not_below. intros a b c H1 H2. eapply Qle_trans; eassumption. Qed.

Lemma place_length : forall h hs, length (place h hs) = S (length hs).
Proof.
  intros h hs. induction hs as [|h' hs IH]; simpl; [reflexivity|].
  destruct (precedes h h'); simpl; [reflexivity | rewrite IH; reflexivity].
Qed.

Lemma rank_length : forall hs, length (rank hs) = length hs.
Proof.
  induction hs as [|h hs IH]; simpl; [reflexivity|].
  rewrite place_length, IH. reflexivity.
Qed.

Lemma place_Forall : forall (P : Hit -> Prop) h hs,
  P h -> Forall P hs -> Forall P (place h hs).
Proof.
  intros P h hs Ph F. induction F as [|h' hs Ph' F IH]; simpl.
  - constructor; [exact Ph | constructor].
  - destruct (precedes h h').
    + constructor; [exact Ph|]. constructor; assumption.
    + constructor; assumption.
Qed.

Lemma place_sorted : forall h hs,
  StronglySorted not_below hs -> StronglySorted not_below (place h hs).
Proof.
  intros h hs S. induction S as [|h' hs S IH F]; simpl.
  - constructor; constructor.
  - destruct (precedes h h') eqn:E.
    + constructor; [constructor; assumption|].
      apply precedes_true in E. constructor; [exact E|].
      eapply Forall_impl; [|exact F].
      intros x Hx. eapply not_below_trans; eassumption.
    + constructor; [exact IH|].
      apply place_Forall; [apply precedes_false, E | exact F].
Qed.

Lemma rank_sorted : forall hs, StronglySorted not_below (rank hs).
Proof.
  induction hs as [|h hs IH]; simpl; [constructor | apply place_sorted, IH].
Qed.

Lemma firstn_sorted : forall k hs,
  StronglySorted not_below hs -> StronglySorted not_below (firstn k hs).
Proof.
  intros k hs S. revert k.
  induction S as [|h hs S IH F]; intros [|k]; simpl; try constructor.
  - apply IH.
  - apply Forall_forall. intros x Hx.
    rewrite Forall_forall in F. apply F.
    rewrite <- (firstn_skipn k hs). apply in_or_app. left. exact Hx.
Qed.

(** Three chunks, two of them equally similar to the query: the best
    one first, then the tie by ascending chunk index. *)
Example search_ranks_and_clamps :
  map chunk_id
    (search (fun _ => [])
       [(0, [1 # 2; 0]%Q); (1, [1; 0]%Q); (2, [1 # 2; 1]%Q)] [1; 0]%Q 5)
  = [1; 0; 2] /\
  map chunk_id
    (search (fun _ => [])
       [(0, [1 # 2; 0]%Q); (1, [1; 0]%Q); (2, [1 # 2; 1]%Q)] [1; 0]%Q 2)
  = [1; 0].
Proof. split; reflexivity. Qed.

(** C2. For every query vector, every k and every index of n chunk
    vectors, search returns at most min(k, n) results, sorted by
    non-increasing similarity score; on the empty index it returns the
    empty result. *)
Theorem search_bounded_sorted : forall text_of (index : Index) q k,
  length (search text_of index q k) <= Nat.min k (length index) /\
  StronglySorted not_below (search text_of index q k) /\
  search text_of empty q k = [].
Proof.
  intros text_of index q k. unfold search. repeat split.
  - rewrite length_firstn, rank_length, length_map. lia.
  - apply firstn_sorted, rank_sorted.
  - simpl. apply firstn_nil.
Qed.

End VectorIndexProps.
